(** * YearMonth (js-joda, src/YearMonth.js): a shallow embedding

    JS numbers are modelled as [Z].  Every computation below stays inside
    the safe-integer range (|x| <= 2^53-1) whenever it succeeds, so the
    embedding is exact on every successful path; the one place where the
    source computes with [undefined] (the boundary path of [minusMonths]) is
    modelled on its own.  Exceptions are modelled with the error monad
    [Result]. *)

From Stdlib Require Import ZArith Lia String Bool.
Open Scope string_scope.
Open Scope Z_scope.

(** ** Errors and the error monad *)

(** Well-known field tokens ([ChronoField]).  The five fields YearMonth
    handles are named; any other well-known field is represented by its
    name together with its declared range. *)
Inductive ChronoField : Type :=
| ERA
| YEAR_OF_ERA
| YEAR
| MONTH_OF_YEAR
| PROLEPTIC_MONTH
| OtherChronoField (name : string) (min max : Z).

(** Well-known unit tokens ([ChronoUnit]). *)
Inductive ChronoUnit : Type :=
| MONTHS
| YEARS
| DECADES
| CENTURIES
| MILLENNIA
| ERAS
| OtherChronoUnit (name : string).

(** The JS values passed where a field or a unit is expected.  The
    class hierarchy: [ChronoField] extends [TemporalField], [ChronoUnit]
    extends [TemporalUnit]; foreign fields and units are other subclasses
    of [TemporalField] / [TemporalUnit], named by an identifier. *)
Inductive JsObj : Type :=
| JNull
| JChronoField (f : ChronoField)
| JForeignField (id : nat)
| JChronoUnit (u : ChronoUnit)
| JForeignUnit (id : nat)
| JOtherObject (id : nat).

Definition instanceof_TemporalField (o : JsObj) : bool :=
  match o with JChronoField _ | JForeignField _ => true | _ => false end.
Definition instanceof_TemporalUnit (o : JsObj) : bool :=
  match o with JChronoUnit _ | JForeignUnit _ => true | _ => false end.
Definition instanceof_ChronoField (o : JsObj) : bool :=
  match o with JChronoField _ => true | _ => false end.
Definition instanceof_ChronoUnit (o : JsObj) : bool :=
  match o with JChronoUnit _ => true | _ => false end.

(** Thrown exceptions. *)
Inductive JsError : Type :=
| NullPointerException (what : string)
| IllegalArgumentException (what : string)
  (** [DateTimeException] raised by a range check, with the field and the value *)
| InvalidValue (field : JsObj) (value : Z)
  (** the same range check failing on the value NaN *)
| InvalidValueNaN (field : JsObj)
| UnsupportedTemporalTypeException (what : string)
| ArithmeticException (what : string)
  (** [DateTimeException] carrying a message *)
| DateTimeException (msg : string)
  (** any error thrown by a foreign object *)
| ForeignError (tag : nat).

Inductive Result (A : Type) : Type :=
| Ok (a : A)
| Err (e : JsError).
Arguments Ok {A} a.
Arguments Err {A} e.

Definition bind {A B : Type} (r : Result A) (k : A -> Result B) : Result B :=
  match r with
  | Ok a => k a
  | Err e => Err e
  end.

Notation "x <- r ;; k" := (bind r (fun x => k))
  (at level 61, r at next level, right associativity).

(** ** Library constants *)

(** Modelled from the spec: MathUtil's safe-integer bounds (MathUtil.js is
    not under src/); the library-wide safe-integer domain of JS numbers. *)
Definition MathUtil_MAX_SAFE_INTEGER : Z := 9007199254740991.
Definition MathUtil_MIN_SAFE_INTEGER : Z := -9007199254740991.

(** [Math.MAX_SAFE_INTEGER] as the source reads it: the built-in [Math]
    object has no such property (the constant is [Number.MAX_SAFE_INTEGER]),
    so the expression is [undefined], written [None]. *)
Definition Math_MAX_SAFE_INTEGER : option Z := None.

(** Modelled from the spec: [Year.MIN_VALUE] / [Year.MAX_VALUE] (Year.js is
    not under src/), the library-wide pair MIN_YEAR..MAX_YEAR of section 3. *)
Definition Year_MIN_VALUE : Z := -999999999.
Definition Year_MAX_VALUE : Z := 999999999.

(** ** ValueRange *)

Record ValueRange : Type := mkRange { vr_min : Z; vr_max : Z }.

Definition ValueRange_of (min max : Z) : ValueRange := mkRange min max.

Definition isValidValue (r : ValueRange) (v : Z) : bool :=
  (vr_min r <=? v) && (v <=? vr_max r).

(** Modelled from the spec: [ValueRange.isIntValue] (ValueRange.js is not
    under src/): the range itself fits the library's int domain, the
    safe-integer domain of MathUtil (section 7). *)
Definition isIntValue (r : ValueRange) : bool :=
  (MathUtil_MIN_SAFE_INTEGER <=? vr_min r) &&
  (vr_max r <=? MathUtil_MAX_SAFE_INTEGER).

(** Modelled from the spec: [ValueRange.checkValidValue] and
    [ValueRange.checkValidIntValue] (ValueRange.js is not under src/): the
    value must lie in the range, else a [DateTimeException]; the int variant,
    the guard of the int entry point [get] (section 4.4), also requires the
    range to be an int range. *)
Definition checkValidValue (r : ValueRange) (v : Z) (f : JsObj)
  : Result Z :=
  if isValidValue r v then Ok v else Err (InvalidValue f v).

Definition checkValidIntValue (r : ValueRange) (v : Z) (f : JsObj)
  : Result Z :=
  if isIntValue r && isValidValue r v then Ok v else Err (InvalidValue f v).

(** Modelled from the spec: the declared ranges of the ChronoField tokens
    (ChronoField.js is not under src/): YEAR is MIN_YEAR..MAX_YEAR,
    MONTH_OF_YEAR 1..12, ERA 0..1 (section 3), YEAR_OF_ERA 1..MAX_YEAR+1
    (section 4.3), PROLEPTIC_MONTH the span of year*12+(month-1) over the
    valid year-months (section 3). *)
Definition ChronoField_range (f : ChronoField) : ValueRange :=
  match f with
  | ERA => ValueRange_of 0 1
  | YEAR_OF_ERA => ValueRange_of 1 (Year_MAX_VALUE + 1)
  | YEAR => ValueRange_of Year_MIN_VALUE Year_MAX_VALUE
  | MONTH_OF_YEAR => ValueRange_of 1 12
  | PROLEPTIC_MONTH =>
      ValueRange_of (Year_MIN_VALUE * 12) (Year_MAX_VALUE * 12 + 11)
  | OtherChronoField _ min max => ValueRange_of min max
  end.

(** [ChronoField.checkValidValue] / [ChronoField.checkValidIntValue]. *)
Definition ChronoField_checkValidValue (f : ChronoField) (v : Z) : Result Z :=
  checkValidValue (ChronoField_range f) v (JChronoField f).

Definition ChronoField_checkValidIntValue (f : ChronoField) (v : Z) : Result Z :=
  checkValidIntValue (ChronoField_range f) v (JChronoField f).

(** ** MathUtil *)

(** Modelled from the spec: MathUtil's overflow-checked arithmetic and
    floor division / modulo (MathUtil.js is not under src/). *)
Definition safeCheck (v : Z) : Result Z :=
  if (MathUtil_MIN_SAFE_INTEGER <=? v) && (v <=? MathUtil_MAX_SAFE_INTEGER)
  then Ok v else Err (ArithmeticException "overflow").

Definition safeAdd (x y : Z) : Result Z := safeCheck (x + y).
Definition safeMultiply (x y : Z) : Result Z := safeCheck (x * y).
Definition floorDiv (x y : Z) : Z := x / y.
Definition floorMod (x y : Z) : Z := x mod y.

(** ** The value type *)

Record YearMonth : Type := mkYearMonth { _year : Z; _month : Z }.

(** The class invariant established by every factory. *)
Definition valid (ym : YearMonth) : Prop :=
  Year_MIN_VALUE <= _year ym <= Year_MAX_VALUE /\ 1 <= _month ym <= 12.

(** [_ofYearMonthNumber] (the number overload of [of]). *)
Definition of_ (year month : Z) : Result YearMonth :=
  _ <- ChronoField_checkValidValue YEAR year ;;
  _ <- ChronoField_checkValidValue MONTH_OF_YEAR month ;;
  Ok (mkYearMonth year month).

Definition year (ym : YearMonth) : Z := _year ym.
Definition monthValue (ym : YearMonth) : Z := _month ym.

(** [_withYearMonth]: returns [this] when unchanged, a new instance
    otherwise; both are the same value. *)
Definition _withYearMonth (ym : YearMonth) (newYear newMonth : Z)
  : Result YearMonth :=
  if (_year ym =? newYear) && (_month ym =? newMonth)
  then Ok ym else Ok (mkYearMonth newYear newMonth).

Definition withYear (ym : YearMonth) (y : Z) : Result YearMonth :=
  _ <- ChronoField_checkValidValue YEAR y ;;
  _withYearMonth ym y (_month ym).

Definition withMonth (ym : YearMonth) (m : Z) : Result YearMonth :=
  _ <- ChronoField_checkValidValue MONTH_OF_YEAR m ;;
  _withYearMonth ym (_year ym) m.

Definition plusYears (ym : YearMonth) (yearsToAdd : Z) : Result YearMonth :=
  if yearsToAdd =? 0 then Ok ym else
  newYear <- ChronoField_checkValidIntValue YEAR (_year ym + yearsToAdd) ;;
  _withYearMonth ym newYear (_month ym).

Definition plusMonths (ym : YearMonth) (monthsToAdd : Z) : Result YearMonth :=
  if monthsToAdd =? 0 then Ok ym else
  let monthCount := (_year ym * 12) + (_month ym - 1) in
  let calcMonths := monthCount + monthsToAdd in
  newYear <- ChronoField_checkValidIntValue YEAR (floorDiv calcMonths 12) ;;
  let newMonth := floorMod calcMonths 12 + 1 in
  _withYearMonth ym newYear newMonth.

Definition minusYears (ym : YearMonth) (yearsToSubtract : Z) : Result YearMonth :=
  if yearsToSubtract =? MathUtil_MIN_SAFE_INTEGER
  then (r <- plusYears ym MathUtil_MIN_SAFE_INTEGER ;; plusYears r 1)
  else plusYears ym (- yearsToSubtract).

(** [plusMonths] applied to an argument that may be [undefined] ([None]).
    On [undefined]: [undefined === 0] is false, [monthCount + undefined] is
    NaN, [MathUtil.floorDiv(NaN, 12)] is NaN, and
    [ChronoField.YEAR.checkValidIntValue(NaN)] throws, since NaN lies in no
    range ('Invalid int value for Year: NaN'). *)
Definition plusMonths_arg (ym : YearMonth) (monthsToAdd : option Z)
  : Result YearMonth :=
  match monthsToAdd with
  | Some n => plusMonths ym n
  | None => Err (InvalidValueNaN (JChronoField YEAR))
  end.

Definition minusMonths (ym : YearMonth) (monthsToSubtract : Z) : Result YearMonth :=
  if monthsToSubtract =? MathUtil_MIN_SAFE_INTEGER
  then (r <- plusMonths_arg ym Math_MAX_SAFE_INTEGER ;; plusMonths r 1)
  else plusMonths ym (- monthsToSubtract).

(** ** External collaborators

    What foreign field and unit objects do when YearMonth defers to them
    (double dispatch), and [ChronoUnit.addTo] (ChronoUnit.js is not under
    src/).  Every operation below is parametric in them. *)
Record Externals : Type := mkExternals {
  field_isSupportedBy : nat -> YearMonth -> bool;
  field_getFrom : nat -> YearMonth -> Result Z;
  field_rangeRefinedBy : nat -> YearMonth -> Result ValueRange;
  field_adjustInto : nat -> YearMonth -> Z -> Result YearMonth;
  unit_isSupportedBy : nat -> YearMonth -> bool;
  unit_addTo : nat -> YearMonth -> Z -> Result YearMonth;
  chronoUnit_addTo : ChronoUnit -> YearMonth -> Z -> Result YearMonth
}.

(** [requireNonNull] and [requireInstance] (assert.js). *)
Definition requireNonNull (o : JsObj) (name : string) : Result unit :=
  match o with JNull => Err (NullPointerException name) | _ => Ok tt end.

Definition requireInstance (isInstance : bool) (name : string) : Result unit :=
  if isInstance then Ok tt else Err (IllegalArgumentException name).

Section Protocol.

Variable env : Externals.

Definition _isSupportedField (ym : YearMonth) (field : JsObj) : bool :=
  match field with
  | JChronoField f =>
      match f with
      | YEAR | MONTH_OF_YEAR | PROLEPTIC_MONTH | YEAR_OF_ERA | ERA => true
      | OtherChronoField _ _ _ => false
      end
  | JForeignField id => field_isSupportedBy env id ym
  | _ => false
  end.

Definition _isSupportedUnit (ym : YearMonth) (unit : JsObj) : bool :=
  match unit with
  | JChronoUnit u =>
      match u with
      | MONTHS | YEARS | DECADES | CENTURIES | MILLENNIA | ERAS => true
      | OtherChronoUnit _ => false
      end
  | JForeignUnit id => unit_isSupportedBy env id ym
  | _ => false
  end.

Definition _getProlepticMonth (ym : YearMonth) : Result Z :=
  p <- safeMultiply (_year ym) 12 ;;
  safeAdd p (_month ym - 1).

Definition getLong (ym : YearMonth) (field : JsObj) : Result Z :=
  _ <- requireNonNull field "field" ;;
  _ <- requireInstance (instanceof_TemporalField field) "field" ;;
  match field with
  | JChronoField f =>
      match f with
      | MONTH_OF_YEAR => Ok (_month ym)
      | PROLEPTIC_MONTH => _getProlepticMonth ym
      | YEAR_OF_ERA => Ok (if _year ym <? 1 then 1 - _year ym else _year ym)
      | YEAR => Ok (_year ym)
      | ERA => Ok (if _year ym <? 1 then 0 else 1)
      | OtherChronoField _ _ _ =>
          Err (UnsupportedTemporalTypeException "Unsupported field")
      end
  | JForeignField id => field_getFrom env id ym
  | _ => Err (IllegalArgumentException "field")
  end.

(** Modelled from the spec: the inherited [TemporalAccessor.range]
    (TemporalAccessor.js is not under src/), section 4.3: a supported
    well-known field has its fixed declared range, an unsupported one fails,
    an unknown field refines its own range. *)
Definition TemporalAccessor_range (ym : YearMonth) (field : JsObj)
  : Result ValueRange :=
  match field with
  | JChronoField f =>
      if _isSupportedField ym field then Ok (ChronoField_range f)
      else Err (UnsupportedTemporalTypeException "Unsupported field")
  | JForeignField id => field_rangeRefinedBy env id ym
  | _ => Err (IllegalArgumentException "field")
  end.

Definition range (ym : YearMonth) (field : JsObj) : Result ValueRange :=
  match field with
  | JChronoField YEAR_OF_ERA =>
      Ok (if year ym <=? 0 then ValueRange_of 1 (Year_MAX_VALUE + 1)
          else ValueRange_of 1 Year_MAX_VALUE)
  | _ => TemporalAccessor_range ym field
  end.

Definition get (ym : YearMonth) (field : JsObj) : Result Z :=
  _ <- requireNonNull field "field" ;;
  _ <- requireInstance (instanceof_TemporalField field) "field" ;;
  r <- range ym field ;;
  v <- getLong ym field ;;
  checkValidIntValue r v field.

Definition _withFieldValue (ym : YearMonth) (field : JsObj) (newValue : Z)
  : Result YearMonth :=
  _ <- requireNonNull field "field" ;;
  _ <- requireInstance (instanceof_TemporalField field) "field" ;;
  match field with
  | JChronoField f =>
      _ <- ChronoField_checkValidValue f newValue ;;
      match f with
      | MONTH_OF_YEAR => withMonth ym newValue
      | PROLEPTIC_MONTH =>
          pm <- getLong ym (JChronoField PROLEPTIC_MONTH) ;;
          plusMonths ym (newValue - pm)
      | YEAR_OF_ERA =>
          withYear ym (if _year ym <? 1 then 1 - newValue else newValue)
      | YEAR => withYear ym newValue
      | ERA =>
          e <- getLong ym (JChronoField ERA) ;;
          if e =? newValue then Ok ym else withYear ym (1 - _year ym)
      | OtherChronoField _ _ _ =>
          Err (UnsupportedTemporalTypeException "Unsupported field")
      end
  | JForeignField id => field_adjustInto env id ym newValue
  | _ => Err (IllegalArgumentException "field")
  end.

(** [_plusAmountUnit]: the switch over the ChronoUnit constants sits under
    the test [unit instanceof ChronoField], as in the source. *)
Definition _plusAmountUnit (ym : YearMonth) (amountToAdd : Z) (unit : JsObj)
  : Result YearMonth :=
  _ <- requireNonNull unit "unit" ;;
  _ <- requireInstance (instanceof_TemporalUnit unit) "unit" ;;
  if instanceof_ChronoField unit then
    match unit with
    | JChronoUnit MONTHS => plusMonths ym amountToAdd
    | JChronoUnit YEARS => plusYears ym amountToAdd
    | JChronoUnit DECADES => n <- safeMultiply amountToAdd 10 ;; plusYears ym n
    | JChronoUnit CENTURIES => n <- safeMultiply amountToAdd 100 ;; plusYears ym n
    | JChronoUnit MILLENNIA => n <- safeMultiply amountToAdd 1000 ;; plusYears ym n
    | JChronoUnit ERAS =>
        e <- getLong ym (JChronoField ERA) ;;
        n <- safeAdd e amountToAdd ;;
        _withFieldValue ym (JChronoField ERA) n
    | _ => Err (UnsupportedTemporalTypeException "Unsupported unit")
    end
  else
    match unit with
    | JChronoUnit u => chronoUnit_addTo env u ym amountToAdd
    | JForeignUnit id => unit_addTo env id ym amountToAdd
    | _ => Err (IllegalArgumentException "unit")
    end.

Definition _minusAmountUnit (ym : YearMonth) (amountToSubtract : Z) (unit : JsObj)
  : Result YearMonth :=
  if amountToSubtract =? MathUtil_MIN_SAFE_INTEGER
  then (r <- _plusAmountUnit ym MathUtil_MAX_SAFE_INTEGER unit ;;
        _plusAmountUnit r 1 unit)
  else _plusAmountUnit ym (- amountToSubtract) unit.

End Protocol.

(** ** equals *)

(** The argument of [equals]: a JS value; objects carry a reference. *)
Inductive JsValue : Type :=
| VNull
| VUndefined
| VYearMonth (ref : nat) (ym : YearMonth)
| VOther (ref : nat).

(** [this] is the YearMonth instance at reference [thisRef]. *)
Definition equals (thisRef : nat) (this : YearMonth) (obj : JsValue) : bool :=
  if match obj with VYearMonth r _ => Nat.eqb r thisRef | _ => false end
  then true
  else
    match obj with
    | VYearMonth _ other =>
        (year this =? year other) && (monthValue this =? monthValue other)
    | _ => false
    end.

(** ** from *)

(** The argument of [from]: null, a YearMonth, or another temporal accessor
    given by its [get] method, its [toString] text and the name of its
    constructor (absent when [temporal.constructor] is null). *)
Inductive TemporalArg : Type :=
| TNull
| TYearMonth (ym : YearMonth)
| TAccessor (get : ChronoField -> Result Z) (text : string)
    (ctorName : option string).

Definition from_error_message (text : string) (ctorName : option string) : string :=
  "Unable to obtain YearMonth from TemporalAccessor: " ++ text ++ ", type " ++
  match ctorName with Some n => n | None => "" end.

Definition from (temporal : TemporalArg) : Result YearMonth :=
  match temporal with
  | TNull => Err (NullPointerException "temporal")
  | TYearMonth ym => Ok ym
  | TAccessor tget text ctorName =>
      match (y <- tget YEAR ;; m <- tget MONTH_OF_YEAR ;; of_ y m) with
      | Ok r => Ok r
      | Err _ => Err (DateTimeException (from_error_message text ctorName))
      end
  end.

(** A concrete environment: no foreign field or unit is ever consulted by
    the well-known tokens below, so any choice works. *)
Definition no_externals : Externals :=
  mkExternals (fun _ _ => false) (fun _ _ => Err (ForeignError 0))
    (fun _ _ => Err (ForeignError 0)) (fun _ _ _ => Err (ForeignError 0))
    (fun _ _ => false) (fun _ _ _ => Err (ForeignError 0))
    (fun _ _ _ => Err (ForeignError 0)).

(** [minusYears] as the spec describes its boundary case: add the positive
    extreme, then add 1 (compare with [minusYears] embedded from the source). *)
Definition minusYears_as_specified (ym : YearMonth) (yearsToSubtract : Z)
  : Result YearMonth :=
  if yearsToSubtract =? MathUtil_MIN_SAFE_INTEGER
  then (r <- plusYears ym MathUtil_MAX_SAFE_INTEGER ;; plusYears r 1)
  else plusYears ym (- yearsToSubtract).

(** ** Helper lemmas *)

Ltac bounds := cbn; unfold Year_MIN_VALUE, Year_MAX_VALUE in *; lia.

Lemma withYearMonth_value (ym : YearMonth) (a b : Z) :
  _withYearMonth ym a b = Ok (mkYearMonth a b).
Proof.
  destruct ym as [y m]; unfold _withYearMonth; simpl.
  destruct (y =? a) eqn:Ha, (m =? b) eqn:Hb; simpl; try reflexivity.
  apply Z.eqb_eq in Ha, Hb; subst; reflexivity.
Qed.

Lemma checkYear_ok (v : Z) :
  Year_MIN_VALUE <= v <= Year_MAX_VALUE ->
  ChronoField_checkValidValue YEAR v = Ok v.
Proof.
  intros H; unfold ChronoField_checkValidValue, checkValidValue,
    isValidValue; simpl.
  replace ((Year_MIN_VALUE <=? v) && (v <=? Year_MAX_VALUE)) with true
    by (symmetry; apply andb_true_intro; split; apply Z.leb_le; lia).
  reflexivity.
Qed.

Lemma prolepticMonth_ok (ym : YearMonth) :
  valid ym -> _getProlepticMonth ym = Ok (_year ym * 12 + (_month ym - 1)).
Proof.
  destruct ym as [y m]; unfold valid, _getProlepticMonth, safeMultiply,
    safeAdd, safeCheck, Year_MIN_VALUE, Year_MAX_VALUE,
    MathUtil_MIN_SAFE_INTEGER, MathUtil_MAX_SAFE_INTEGER; simpl; intros [Hy Hm].
  replace ((-9007199254740991 <=? y * 12) && (y * 12 <=? 9007199254740991))
    with true by (symmetry; apply andb_true_intro; split; apply Z.leb_le; lia).
  simpl.
  replace ((-9007199254740991 <=? y * 12 + (m - 1)) &&
           (y * 12 + (m - 1) <=? 9007199254740991))
    with true by (symmetry; apply andb_true_intro; split; apply Z.leb_le; lia).
  reflexivity.
Qed.

Lemma getLong_prolepticMonth (env : Externals) (ym : YearMonth) :
  valid ym ->
  getLong env ym (JChronoField PROLEPTIC_MONTH) =
  Ok (_year ym * 12 + (_month ym - 1)).
Proof. intros H; simpl; apply prolepticMonth_ok; exact H. Qed.

Lemma plusMonths_unfold (y m n : Z) :
  plusMonths (mkYearMonth y m) n =
    (if n =? 0 then Ok (mkYearMonth y m) else
     let total := y * 12 + (m - 1) + n in
     if (Year_MIN_VALUE <=? floorDiv total 12) &&
        (floorDiv total 12 <=? Year_MAX_VALUE)
     then Ok (mkYearMonth (floorDiv total 12) (floorMod total 12 + 1))
     else Err (InvalidValue (JChronoField YEAR) (floorDiv total 12))).
Proof.
  unfold plusMonths; simpl.
  destruct (n =? 0); [reflexivity |].
  unfold ChronoField_checkValidIntValue, checkValidIntValue, isIntValue, isValidValue; simpl.
  destruct (_ && _); simpl; [apply withYearMonth_value | reflexivity].
Qed.

Lemma month_count_div_mod (y m : Z) :
  1 <= m <= 12 ->
  floorDiv (y * 12 + (m - 1)) 12 = y /\ floorMod (y * 12 + (m - 1)) 12 = m - 1.
Proof.
  intros H; unfold floorDiv, floorMod; split.
  - symmetry; apply Z.div_unique with (m - 1); lia.
  - symmetry; apply Z.mod_unique with y; lia.
Qed.

(** ** C1: plus(amount, unit) on the well-known units *)

(** C1 (code_bug).  For every well-known unit token [u], the switch of
    [_plusAmountUnit] is never reached: a ChronoUnit is not an instance of
    ChronoField, so [plus(amount, u)] returns whatever [u.addTo(this, amount)]
    returns, never calling [plusMonths] / [plusYears] / [with(ERA, ...)]. *)
Theorem plusAmountUnit_chronoUnit_defers (env : Externals) (ym : YearMonth)
  (amount : Z) (u : ChronoUnit) :
  _plusAmountUnit env ym amount (JChronoUnit u) =
  chronoUnit_addTo env u ym amount.
Proof. reflexivity. Qed.

(** ** C2: the boundary case of minusYears *)

(** C2 (code_bug).  At the safe-integer minimum, [minusYears] adds the
    minimum itself (the year check sees 2007 + MIN_SAFE_INTEGER), not the
    positive extreme followed by 1 as [minus(n, unit)] does. *)
Theorem minusYears_boundary_adds_minimum :
  minusYears (mkYearMonth 2007 12) MathUtil_MIN_SAFE_INTEGER =
    Err (InvalidValue (JChronoField YEAR) (2007 + MathUtil_MIN_SAFE_INTEGER)) /\
  minusYears_as_specified (mkYearMonth 2007 12) MathUtil_MIN_SAFE_INTEGER =
    Err (InvalidValue (JChronoField YEAR) (2007 + MathUtil_MAX_SAFE_INTEGER)) /\
  minusYears (mkYearMonth 2007 12) MathUtil_MIN_SAFE_INTEGER <>
  minusYears_as_specified (mkYearMonth 2007 12) MathUtil_MIN_SAFE_INTEGER.
Proof. vm_compute. split; [reflexivity | split; [reflexivity | discriminate]]. Qed.

(** ** C3: plusMonths *)

(** C3.  [plusMonths n] is the identity for [n = 0]; otherwise, with
    [total = y*12 + (m-1) + n], it yields year [floorDiv total 12] (failing
    when outside the YEAR range) and month [floorMod total 12 + 1].  Also
    2007-12 plus one month is 2008-01 and 2008-01 minus one month is 2007-12. *)
Theorem plusMonths_floor_arithmetic (y m n : Z) :
  plusMonths (mkYearMonth y m) n =
    (if n =? 0 then Ok (mkYearMonth y m) else
     let total := y * 12 + (m - 1) + n in
     if (Year_MIN_VALUE <=? floorDiv total 12) &&
        (floorDiv total 12 <=? Year_MAX_VALUE)
     then Ok (mkYearMonth (floorDiv total 12) (floorMod total 12 + 1))
     else Err (InvalidValue (JChronoField YEAR) (floorDiv total 12))) /\
  (x <- of_ 2007 12 ;; plusMonths x 1) = of_ 2008 1 /\
  (x <- of_ 2008 1 ;; minusMonths x 1) = of_ 2007 12.
Proof.
  split; [apply plusMonths_unfold | split; vm_compute; reflexivity].
Qed.

(** ** C4: getLong on the well-known fields *)

(** C4.  On a valid YearMonth, [getLong] returns the month, the proleptic
    month [y*12 + (m-1)] (its overflow checks never fire), the year-of-era,
    the year and the era, and fails with UnsupportedTemporalTypeException on
    every other well-known field. *)
Theorem getLong_wellknown_fields (env : Externals) (ym : YearMonth)
  (Hvalid : valid ym) :
  getLong env ym (JChronoField MONTH_OF_YEAR) = Ok (_month ym) /\
  getLong env ym (JChronoField PROLEPTIC_MONTH) =
    Ok (_year ym * 12 + (_month ym - 1)) /\
  getLong env ym (JChronoField YEAR_OF_ERA) =
    Ok (if _year ym <? 1 then 1 - _year ym else _year ym) /\
  getLong env ym (JChronoField YEAR) = Ok (_year ym) /\
  getLong env ym (JChronoField ERA) = Ok (if _year ym <? 1 then 0 else 1) /\
  (forall name lo hi,
     getLong env ym (JChronoField (OtherChronoField name lo hi)) =
     Err (UnsupportedTemporalTypeException "Unsupported field")).
Proof.
  repeat split; try reflexivity.
  simpl. apply prolepticMonth_ok. exact Hvalid.
Qed.

Lemma getLong_wellknown_fields_witness :
  valid (mkYearMonth 0 6) /\
  getLong no_externals (mkYearMonth 0 6) (JChronoField PROLEPTIC_MONTH) = Ok 5 /\
  getLong no_externals (mkYearMonth 0 6) (JChronoField ERA) = Ok 0.
Proof.
  assert (H : valid (mkYearMonth 0 6))
    by (unfold valid, Year_MIN_VALUE, Year_MAX_VALUE; simpl; lia).
  destruct (getLong_wellknown_fields no_externals (mkYearMonth 0 6) H)
    as [_ [Hp [_ [_ [He _]]]]].
  split; [exact H | split; [rewrite Hp; reflexivity | rewrite He; reflexivity]].
Defined.

(** ** C5: get(PROLEPTIC_MONTH) *)

(** C5 (code_bug).  [get(PROLEPTIC_MONTH)] does not fail, against its own
    documentation ("EPOCH_MONTH ... too large to fit in an int") and the
    claim: the declared range of PROLEPTIC_MONTH fits the library's int
    domain, so the int check of [get] passes, and on every valid YearMonth
    [get] returns the value [getLong] returns, [y*12 + (m-1)]. *)
Theorem get_prolepticMonth_agrees_with_getLong (env : Externals)
  (ym : YearMonth) (Hvalid : valid ym) :
  isIntValue (ChronoField_range PROLEPTIC_MONTH) = true /\
  get env ym (JChronoField PROLEPTIC_MONTH) = Ok (_year ym * 12 + (_month ym - 1)) /\
  getLong env ym (JChronoField PROLEPTIC_MONTH) = Ok (_year ym * 12 + (_month ym - 1)).
Proof.
  assert (Hl : getLong env ym (JChronoField PROLEPTIC_MONTH) =
               Ok (_year ym * 12 + (_month ym - 1)))
    by (simpl; apply prolepticMonth_ok; exact Hvalid).
  assert (Hi : isIntValue (ChronoField_range PROLEPTIC_MONTH) = true)
    by reflexivity.
  split; [exact Hi | split; [| exact Hl]].
  unfold get; cbn [requireNonNull requireInstance instanceof_TemporalField
    range TemporalAccessor_range _isSupportedField bind].
  rewrite Hl; cbn [bind].
  unfold checkValidIntValue; rewrite Hi; cbn [andb].
  unfold isValidValue; cbn [ChronoField_range ValueRange_of vr_min vr_max].
  destruct ym as [y m]; unfold valid, Year_MIN_VALUE, Year_MAX_VALUE in *;
    cbn [_year _month] in *.
  destruct (_ && _) eqn:E; [reflexivity | exfalso].
  apply andb_false_iff in E; destruct E as [E | E]; apply Z.leb_gt in E; lia.
Qed.

Lemma get_prolepticMonth_agrees_with_getLong_witness :
  valid (mkYearMonth 2007 12) /\
  get no_externals (mkYearMonth 2007 12) (JChronoField PROLEPTIC_MONTH) = Ok 24095.
Proof.
  assert (H : valid (mkYearMonth 2007 12))
    by (unfold valid, Year_MIN_VALUE, Year_MAX_VALUE; simpl; lia).
  split; [exact H |].
  destruct (get_prolepticMonth_agrees_with_getLong no_externals _ H) as [_ [Hg _]].
  rewrite Hg; reflexivity.
Defined.

(** ** C6: with(field, newValue) *)

(** C6 (counterexample).  On the year MIN_YEAR (era 0), [with(ERA, 1)] passes
    the ERA bounds check but fails: the flipped year [1 - MIN_YEAR] is
    outside the YEAR range, so the year is not replaced. *)
Lemma withFieldValue_era_flip_at_min_year_fails :
  getLong no_externals (mkYearMonth Year_MIN_VALUE 1) (JChronoField ERA) = Ok 0 /\
  _withFieldValue no_externals (mkYearMonth Year_MIN_VALUE 1) (JChronoField ERA) 1 =
    Err (InvalidValue (JChronoField YEAR) (1 - Year_MIN_VALUE)) /\
  _withFieldValue no_externals (mkYearMonth Year_MIN_VALUE 1) (JChronoField ERA) 1 <>
    Ok (mkYearMonth (1 - Year_MIN_VALUE) 1).
Proof.
  split; [reflexivity | split; [reflexivity | vm_compute; discriminate]].
Qed.

(** C6 (amended).  [with(field, v)] first checks [v] against the field's
    declared bounds; then MONTH_OF_YEAR replaces the month, YEAR the year,
    PROLEPTIC_MONTH adds [v - (y*12 + (m-1))] months with [plusMonths], and
    YEAR_OF_ERA (year [1-v] when [y < 1], else [v]) and ERA (no change when
    the era is already [v], else year [1-y]) replace the year through the
    validated year setter, failing when that year is outside the YEAR range. *)
Theorem withFieldValue_dispatch (env : Externals) (ym : YearMonth) (v : Z)
  (Hvalid : valid ym) :
  (forall f, isValidValue (ChronoField_range f) v = false ->
     _withFieldValue env ym (JChronoField f) v = Err (InvalidValue (JChronoField f) v)) /\
  (1 <= v <= 12 ->
     _withFieldValue env ym (JChronoField MONTH_OF_YEAR) v =
     Ok (mkYearMonth (_year ym) v)) /\
  (Year_MIN_VALUE * 12 <= v <= Year_MAX_VALUE * 12 + 11 ->
     _withFieldValue env ym (JChronoField PROLEPTIC_MONTH) v =
     plusMonths ym (v - (_year ym * 12 + (_month ym - 1)))) /\
  (1 <= v <= Year_MAX_VALUE + 1 ->
     let ny := if _year ym <? 1 then 1 - v else v in
     _withFieldValue env ym (JChronoField YEAR_OF_ERA) v =
     if (Year_MIN_VALUE <=? ny) && (ny <=? Year_MAX_VALUE)
     then Ok (mkYearMonth ny (_month ym))
     else Err (InvalidValue (JChronoField YEAR) ny)) /\
  (Year_MIN_VALUE <= v <= Year_MAX_VALUE ->
     _withFieldValue env ym (JChronoField YEAR) v = Ok (mkYearMonth v (_month ym))) /\
  (0 <= v <= 1 ->
     let ny := 1 - _year ym in
     _withFieldValue env ym (JChronoField ERA) v =
     if (if _year ym <? 1 then 0 else 1) =? v then Ok ym
     else if (Year_MIN_VALUE <=? ny) && (ny <=? Year_MAX_VALUE)
     then Ok (mkYearMonth ny (_month ym))
     else Err (InvalidValue (JChronoField YEAR) ny)).
Proof.
  assert (Hin : forall f, Z.le (vr_min (ChronoField_range f)) v ->
                Z.le v (vr_max (ChronoField_range f)) ->
                ChronoField_checkValidValue f v = Ok v).
  { intros f H1 H2; unfold ChronoField_checkValidValue, checkValidValue,
      isValidValue.
    replace ((vr_min (ChronoField_range f) <=? v) &&
             (v <=? vr_max (ChronoField_range f)))
      with true by (symmetry; apply andb_true_intro; split; apply Z.leb_le; lia).
    reflexivity. }
  assert (Hwy : forall ny, withYear ym ny =
            if (Year_MIN_VALUE <=? ny) && (ny <=? Year_MAX_VALUE)
            then Ok (mkYearMonth ny (_month ym))
            else Err (InvalidValue (JChronoField YEAR) ny)).
  { intros ny; unfold withYear, ChronoField_checkValidValue, checkValidValue,
      isValidValue; simpl.
    destruct (_ && _); simpl; [apply withYearMonth_value | reflexivity]. }
  split; [| split; [| split; [| split; [| split]]]].
  - intros f Hf. unfold _withFieldValue;
      cbn [requireNonNull requireInstance instanceof_TemporalField bind].
    unfold ChronoField_checkValidValue, checkValidValue; rewrite Hf.
    reflexivity.
  - intros H. unfold _withFieldValue;
      cbn [requireNonNull requireInstance instanceof_TemporalField bind].
    rewrite (Hin MONTH_OF_YEAR) by bounds. simpl.
    unfold withMonth; rewrite (Hin MONTH_OF_YEAR) by bounds.
    apply withYearMonth_value.
  - intros H. unfold _withFieldValue;
      cbn [requireNonNull requireInstance instanceof_TemporalField bind].
    rewrite (Hin PROLEPTIC_MONTH) by bounds. simpl.
    rewrite (getLong_prolepticMonth env ym Hvalid). reflexivity.
  - intros H ny. unfold _withFieldValue;
      cbn [requireNonNull requireInstance instanceof_TemporalField bind].
    rewrite (Hin YEAR_OF_ERA) by bounds. simpl.
    apply Hwy.
  - intros H. unfold _withFieldValue;
      cbn [requireNonNull requireInstance instanceof_TemporalField bind].
    rewrite (Hin YEAR) by bounds. simpl.
    unfold withYear; rewrite (Hin YEAR) by bounds.
    apply withYearMonth_value.
  - intros H ny. unfold _withFieldValue;
      cbn [requireNonNull requireInstance instanceof_TemporalField bind].
    rewrite (Hin ERA) by bounds. simpl.
    destruct (_ =? v); [reflexivity | apply Hwy].
Qed.

Lemma withFieldValue_dispatch_witness :
  valid (mkYearMonth 2007 12) /\
  _withFieldValue no_externals (mkYearMonth 2007 12) (JChronoField YEAR) 2010 =
  Ok (mkYearMonth 2010 12).
Proof.
  assert (H : valid (mkYearMonth 2007 12))
    by (unfold valid, Year_MIN_VALUE, Year_MAX_VALUE; simpl; lia).
  split; [exact H |].
  destruct (withFieldValue_dispatch no_externals _ 2010 H) as [_ [_ [_ [_ [Hy _]]]]].
  apply Hy. unfold Year_MIN_VALUE, Year_MAX_VALUE; lia.
Defined.

(** ** C7: plusMonths then minusMonths *)

(** C7.  For a valid YearMonth and any [n] such that [plusMonths n] and then
    [minusMonths n] both succeed, the result equals the original value. *)
Theorem plusMonths_then_minusMonths (ym r r' : YearMonth) (n : Z)
  (Hvalid : valid ym) (Hplus : plusMonths ym n = Ok r)
  (Hminus : minusMonths r n = Ok r') :
  r' = ym.
Proof.
  destruct ym as [y m]; unfold valid in Hvalid; cbn in Hvalid.
  rewrite plusMonths_unfold in Hplus; cbv zeta in Hplus.
  unfold minusMonths in Hminus.
  destruct (n =? 0) eqn:E0.
  - apply Z.eqb_eq in E0; subst n.
    injection Hplus as <-.
    cbn in Hminus; injection Hminus as <-; reflexivity.
  - apply Z.eqb_neq in E0.
    remember (y * 12 + (m - 1) + n) as t eqn:Ht.
    destruct (_ && _) eqn:C in Hplus; [| discriminate].
    injection Hplus as <-.
    apply andb_true_iff in C; destruct C as [C1 C2];
      apply Z.leb_le in C1, C2.
    unfold floorDiv, floorMod in *.
    pose proof (Z.div_mod t 12 ltac:(lia)) as Hdm.
    pose proof (Z.mod_pos_bound t 12 ltac:(lia)) as Hmb.
    destruct (n =? MathUtil_MIN_SAFE_INTEGER) eqn:Emin.
    + exfalso; apply Z.eqb_eq in Emin.
      unfold MathUtil_MIN_SAFE_INTEGER, Year_MIN_VALUE, Year_MAX_VALUE in *; lia.
    + rewrite plusMonths_unfold in Hminus; cbv zeta in Hminus.
      destruct (- n =? 0) eqn:E1; [apply Z.eqb_eq in E1; lia |].
      replace (t / 12 * 12 + (t mod 12 + 1 - 1) + - n) with (y * 12 + (m - 1))
        in Hminus by lia.
      destruct (month_count_div_mod y m) as [D M]; [lia |].
      rewrite D, M in Hminus.
      replace ((Year_MIN_VALUE <=? y) && (y <=? Year_MAX_VALUE)) with true
        in Hminus by (symmetry; apply andb_true_intro; split; apply Z.leb_le; lia).
      injection Hminus as <-; f_equal; lia.
Qed.

Lemma plusMonths_then_minusMonths_witness :
  valid (mkYearMonth 2007 12) /\
  plusMonths (mkYearMonth 2007 12) (-25) = Ok (mkYearMonth 2005 11) /\
  minusMonths (mkYearMonth 2005 11) (-25) = Ok (mkYearMonth 2007 12) /\
  mkYearMonth 2007 12 = mkYearMonth 2007 12.
Proof.
  assert (H : valid (mkYearMonth 2007 12))
    by (unfold valid, Year_MIN_VALUE, Year_MAX_VALUE; simpl; lia).
  split; [exact H | split; [vm_compute; reflexivity |
    split; [vm_compute; reflexivity |]]].
  apply (plusMonths_then_minusMonths (mkYearMonth 2007 12) (mkYearMonth 2005 11)
           (mkYearMonth 2007 12) (-25) H); vm_compute; reflexivity.
Defined.

(** ** C8: range(YEAR_OF_ERA) *)

(** C8.  [range(YEAR_OF_ERA)] is 1..MAX_YEAR when the year is at least 1,
    and 1..MAX_YEAR+1 when the year is below 1. *)
Theorem range_yearOfEra (env : Externals) (ym : YearMonth) :
  range env ym (JChronoField YEAR_OF_ERA) =
  Ok (if 1 <=? _year ym then ValueRange_of 1 Year_MAX_VALUE
      else ValueRange_of 1 (Year_MAX_VALUE + 1)).
Proof.
  cbn [range]; unfold year.
  destruct (Z.leb_spec (_year ym) 0), (Z.leb_spec 1 (_year ym));
    solve [reflexivity | lia].
Qed.

(** ** C9: from *)

(** C9.  [from] returns a YearMonth argument unchanged; for another
    accessor it reads YEAR then MONTH_OF_YEAR through the accessor's own
    [get] and builds the result with [of]; any failure there becomes a
    DateTimeException whose message names the accessor's text and the name
    of its constructor (empty when it has none). *)
Theorem from_conversion :
  (forall ym, from (TYearMonth ym) = Ok ym) /\
  (forall tget text ctorName,
     let msg := "Unable to obtain YearMonth from TemporalAccessor: " ++ text ++
                ", type " ++ match ctorName with Some n => n | None => "" end in
     from (TAccessor tget text ctorName) =
     match tget YEAR with
     | Ok y =>
         match tget MONTH_OF_YEAR with
         | Ok m =>
             match of_ y m with
             | Ok r => Ok r
             | Err _ => Err (DateTimeException msg)
             end
         | Err _ => Err (DateTimeException msg)
         end
     | Err _ => Err (DateTimeException msg)
     end).
Proof.
  split; [reflexivity |].
  intros tget text ctorName msg; unfold from.
  destruct (tget YEAR); [cbn [bind] | reflexivity].
  destruct (tget MONTH_OF_YEAR); [cbn [bind] | reflexivity].
  destruct (of_ _ _); reflexivity.
Qed.

(** ** C10: equals *)

(** C10.  [equals] never fails; it is false on null, undefined and any
    non-YearMonth object, true on the identical instance, and otherwise true
    exactly when year and month are equal. *)
Theorem equals_cases (thisRef : nat) (this : YearMonth) :
  equals thisRef this VNull = false /\
  equals thisRef this VUndefined = false /\
  (forall r, equals thisRef this (VOther r) = false) /\
  equals thisRef this (VYearMonth thisRef this) = true /\
  (forall r other,
     equals thisRef this (VYearMonth r other) =
     Nat.eqb r thisRef ||
     ((year this =? year other) && (monthValue this =? monthValue other))).
Proof.
  split; [reflexivity | split; [reflexivity | split; [reflexivity | split]]].
  - unfold equals; rewrite Nat.eqb_refl; reflexivity.
  - intros r other; unfold equals; destruct (Nat.eqb r thisRef); reflexivity.
Qed.

(** * Further properties of YearMonth *)

(** ** Helper lemmas and tactics *)

Ltac decide_cmp :=
  repeat match goal with
  | |- context [?a <=? ?b] => destruct (Z.leb_spec a b)
  | |- context [?a <? ?b] => destruct (Z.ltb_spec a b)
  | |- context [?a =? ?b] => destruct (Z.eqb_spec a b)
  end; cbn [andb orb].

Ltac decide_cmp_in H :=
  repeat match type of H with
  | context [?a <=? ?b] => destruct (Z.leb_spec a b)
  | context [?a <? ?b] => destruct (Z.ltb_spec a b)
  | context [?a =? ?b] => destruct (Z.eqb_spec a b)
  end; cbn [andb orb] in H.

Lemma plusYears_unfold (y m n : Z) :
  plusYears (mkYearMonth y m) n =
    (if n =? 0 then Ok (mkYearMonth y m) else
     if (Year_MIN_VALUE <=? y + n) && (y + n <=? Year_MAX_VALUE)
     then Ok (mkYearMonth (y + n) m)
     else Err (InvalidValue (JChronoField YEAR) (y + n))).
Proof.
  unfold plusYears; simpl.
  destruct (n =? 0); [reflexivity |].
  unfold ChronoField_checkValidIntValue, checkValidIntValue, isIntValue, isValidValue; simpl.
  destruct (_ && _); simpl; [apply withYearMonth_value | reflexivity].
Qed.

Lemma withYear_unfold (ym : YearMonth) (y : Z) :
  withYear ym y =
    if (Year_MIN_VALUE <=? y) && (y <=? Year_MAX_VALUE)
    then Ok (mkYearMonth y (_month ym))
    else Err (InvalidValue (JChronoField YEAR) y).
Proof.
  unfold withYear, ChronoField_checkValidValue, checkValidValue,
    isValidValue; simpl.
  destruct (_ && _); simpl; [apply withYearMonth_value | reflexivity].
Qed.

Lemma withMonth_unfold (ym : YearMonth) (m : Z) :
  withMonth ym m =
    if (1 <=? m) && (m <=? 12)
    then Ok (mkYearMonth (_year ym) m)
    else Err (InvalidValue (JChronoField MONTH_OF_YEAR) m).
Proof.
  unfold withMonth, ChronoField_checkValidValue, checkValidValue,
    isValidValue; simpl.
  destruct (_ && _); simpl; [apply withYearMonth_value | reflexivity].
Qed.

Lemma checkValidValue_in (f : ChronoField) (v : Z) :
  vr_min (ChronoField_range f) <= v <= vr_max (ChronoField_range f) ->
  ChronoField_checkValidValue f v = Ok v.
Proof.
  intros H; unfold ChronoField_checkValidValue, checkValidValue, isValidValue.
  replace ((vr_min (ChronoField_range f) <=? v) &&
           (v <=? vr_max (ChronoField_range f)))
    with true by (symmetry; apply andb_true_intro; split; apply Z.leb_le; lia).
  reflexivity.
Qed.

Lemma plusYears_valid (ym r : YearMonth) (n : Z) :
  valid ym -> plusYears ym n = Ok r -> valid r.
Proof.
  destruct ym as [y m]; intros Hv H; rewrite plusYears_unfold in H.
  unfold valid in *; cbn in Hv.
  destruct (n =? 0); [injection H as <-; exact Hv |].
  decide_cmp_in H; try discriminate; injection H as <-; cbn; lia.
Qed.

Lemma plusMonths_valid (ym r : YearMonth) (n : Z) :
  valid ym -> plusMonths ym n = Ok r -> valid r.
Proof.
  destruct ym as [y m]; intros Hv H; rewrite plusMonths_unfold in H;
    cbv zeta in H.
  destruct (n =? 0); [injection H as <-; exact Hv |].
  unfold valid, floorDiv, floorMod in *; cbn in Hv.
  pose proof (Z.mod_pos_bound (y * 12 + (m - 1) + n) 12 ltac:(lia)).
  decide_cmp_in H; try discriminate; injection H as <-; cbn; lia.
Qed.

Lemma withYear_valid (ym r : YearMonth) (y : Z) :
  valid ym -> withYear ym y = Ok r -> valid r.
Proof.
  intros Hv H; rewrite withYear_unfold in H; unfold valid in *.
  decide_cmp_in H; try discriminate; injection H as <-; cbn; lia.
Qed.

Lemma withMonth_valid (ym r : YearMonth) (m : Z) :
  valid ym -> withMonth ym m = Ok r -> valid r.
Proof.
  intros Hv H; rewrite withMonth_unfold in H; unfold valid in *.
  decide_cmp_in H; try discriminate; injection H as <-; cbn; lia.
Qed.

Lemma minusYears_valid (ym r : YearMonth) (n : Z) :
  valid ym -> minusYears ym n = Ok r -> valid r.
Proof.
  intros Hv H; unfold minusYears in H.
  destruct (n =? MathUtil_MIN_SAFE_INTEGER).
  - destruct (plusYears ym MathUtil_MIN_SAFE_INTEGER) as [r1 |] eqn:E1;
      cbn [bind] in H; [| discriminate].
    eapply plusYears_valid; [eapply plusYears_valid; eauto | exact H].
  - eapply plusYears_valid; eauto.
Qed.

Lemma minusMonths_valid (ym r : YearMonth) (n : Z) :
  valid ym -> minusMonths ym n = Ok r -> valid r.
Proof.
  intros Hv H; unfold minusMonths in H.
  destruct (n =? MathUtil_MIN_SAFE_INTEGER).
  - discriminate H.
  - eapply plusMonths_valid; eauto.
Qed.

Lemma withFieldValue_chrono_valid (env : Externals) (ym r : YearMonth)
  (f : ChronoField) (v : Z) :
  valid ym -> _withFieldValue env ym (JChronoField f) v = Ok r -> valid r.
Proof.
  intros Hv H; unfold _withFieldValue in H;
    cbn [requireNonNull requireInstance instanceof_TemporalField bind] in H.
  destruct (ChronoField_checkValidValue f v); cbn [bind] in H; [| discriminate].
  destruct f.
  - cbn [getLong requireNonNull requireInstance instanceof_TemporalField bind] in H.
    destruct (_ =? v); [injection H as <-; exact Hv | eapply withYear_valid; eauto].
  - eapply withYear_valid; eauto.
  - eapply withYear_valid; eauto.
  - eapply withMonth_valid; eauto.
  - rewrite (getLong_prolepticMonth env ym Hv) in H; cbn [bind] in H.
    eapply plusMonths_valid; eauto.
  - discriminate.
Qed.

Ltac ok_subst Hw :=
  match type of Hw with
  | Ok ?a = Ok ?b => assert (b = a) by congruence; subst b; clear Hw
  end.

Ltac finish :=
  first [reflexivity | exfalso; lia | f_equal; f_equal; lia | f_equal; lia].

Lemma checkValidValue_ok_inv (f : ChronoField) (v w : Z) :
  ChronoField_checkValidValue f v = Ok w ->
  w = v /\ vr_min (ChronoField_range f) <= v <= vr_max (ChronoField_range f).
Proof.
  unfold ChronoField_checkValidValue, checkValidValue, isValidValue.
  destruct (Z.leb_spec (vr_min (ChronoField_range f)) v),
           (Z.leb_spec v (vr_max (ChronoField_range f)));
    cbn [andb]; intros Hc; try discriminate; injection Hc as <-; lia.
Qed.

Lemma plusYears_plusYears (ym r : YearMonth) (a b : Z) :
  valid ym -> plusYears ym a = Ok r -> plusYears r b = plusYears ym (a + b).
Proof.
  destruct ym as [y m]; intros Hv H; unfold valid in Hv; cbn in Hv.
  rewrite plusYears_unfold in H.
  destruct (Z.eqb_spec a 0) as [Ea | Ea].
  - subst a; injection H as <-; reflexivity.
  - decide_cmp_in H; try discriminate; injection H as <-.
    rewrite !plusYears_unfold; decide_cmp; finish.
Qed.

Lemma plusMonths_plusMonths (ym r : YearMonth) (a b : Z) :
  valid ym -> plusMonths ym a = Ok r -> plusMonths r b = plusMonths ym (a + b).
Proof.
  destruct ym as [y m]; intros Hv H; unfold valid in Hv; cbn in Hv.
  rewrite plusMonths_unfold in H; cbv zeta in H.
  destruct (Z.eqb_spec a 0) as [Ea | Ea].
  - subst a; injection H as <-; reflexivity.
  - remember (y * 12 + (m - 1) + a) as t eqn:Ht.
    destruct (_ && _) eqn:C in H; [| discriminate]; injection H as <-.
    rewrite !plusMonths_unfold; cbv zeta.
    pose proof (Z.div_mod t 12 ltac:(lia)) as Hdm.
    unfold floorDiv, floorMod in *.
    replace (t / 12 * 12 + (t mod 12 + 1 - 1) + b) with (t + b) by lia.
    replace (y * 12 + (m - 1) + (a + b)) with (t + b) by lia.
    destruct (Z.eqb_spec b 0) as [Eb | Eb].
    + subst b; rewrite !Z.add_0_r, C.
      replace (a =? 0) with false by (symmetry; apply Z.eqb_neq; lia).
      reflexivity.
    + destruct (Z.eqb_spec (a + b) 0) as [Eab | Eab]; [| reflexivity].
      replace (t + b) with (y * 12 + (m - 1)) by lia.
      destruct (month_count_div_mod y m ltac:(lia)) as [D M];
        unfold floorDiv, floorMod in D, M; rewrite D, M.
      decide_cmp; finish.
Qed.

Lemma plusMonths_prolepticMonth (y m n : Z) (r : YearMonth) :
  plusMonths (mkYearMonth y m) n = Ok r ->
  _year r * 12 + (_month r - 1) = y * 12 + (m - 1) + n.
Proof.
  intros H; rewrite plusMonths_unfold in H; cbv zeta in H.
  destruct (Z.eqb_spec n 0).
  - subst; injection H as <-; cbn; lia.
  - destruct (_ && _) in H; [| discriminate]; injection H as <-; cbn.
    unfold floorDiv, floorMod.
    pose proof (Z.div_mod (y * 12 + (m - 1) + n) 12 ltac:(lia)); lia.
Qed.

(** ** of *)

(** [of(year, month)] succeeds exactly on a year in MIN_YEAR..MAX_YEAR and a
    month in 1..12, with that pair; the year is checked first, so a bad year
    is reported even when the month is bad too. *)
Theorem of_validates (y m : Z) :
  (forall r, of_ y m = Ok r <-> valid (mkYearMonth y m) /\ r = mkYearMonth y m) /\
  (~ (Year_MIN_VALUE <= y <= Year_MAX_VALUE) ->
     of_ y m = Err (InvalidValue (JChronoField YEAR) y)) /\
  (Year_MIN_VALUE <= y <= Year_MAX_VALUE -> ~ (1 <= m <= 12) ->
     of_ y m = Err (InvalidValue (JChronoField MONTH_OF_YEAR) m)).
Proof.
  unfold of_, ChronoField_checkValidValue, checkValidValue, isValidValue,
    valid; cbn [ChronoField_range ValueRange_of vr_min vr_max _year _month].
  split; [| split].
  - intros r; decide_cmp; cbn [bind];
      split; intros Hr; try discriminate;
      try (injection Hr as <-; split; [lia | reflexivity]);
      try (destruct Hr as [Hr1 Hr2]; subst; first [reflexivity | exfalso; lia]).
  - intros Hy; decide_cmp; cbn [bind]; finish.
  - intros Hy Hm; decide_cmp; cbn [bind]; finish.
Qed.

(** ** The class invariant *)

(** Every operation that builds a YearMonth from a valid one yields a valid
    one when it succeeds: year in MIN_YEAR..MAX_YEAR, month in 1..12. *)
Theorem operations_preserve_valid (env : Externals) (ym : YearMonth)
  (Hvalid : valid ym) :
  (forall n r, plusYears ym n = Ok r -> valid r) /\
  (forall n r, plusMonths ym n = Ok r -> valid r) /\
  (forall n r, minusYears ym n = Ok r -> valid r) /\
  (forall n r, minusMonths ym n = Ok r -> valid r) /\
  (forall y r, withYear ym y = Ok r -> valid r) /\
  (forall m r, withMonth ym m = Ok r -> valid r) /\
  (forall f v r, _withFieldValue env ym (JChronoField f) v = Ok r -> valid r).
Proof.
  split; [| split; [| split; [| split; [| split; [| split]]]]]; intros.
  - eapply plusYears_valid; eauto.
  - eapply plusMonths_valid; eauto.
  - eapply minusYears_valid; eauto.
  - eapply minusMonths_valid; eauto.
  - eapply withYear_valid; eauto.
  - eapply withMonth_valid; eauto.
  - eapply withFieldValue_chrono_valid; eauto.
Qed.

Lemma operations_preserve_valid_witness :
  valid (mkYearMonth 2007 12) /\ valid (mkYearMonth 2008 1).
Proof.
  assert (H : valid (mkYearMonth 2007 12))
    by (unfold valid, Year_MIN_VALUE, Year_MAX_VALUE; simpl; lia).
  split; [exact H |].
  destruct (operations_preserve_valid no_externals _ H) as [_ [Hpm _]].
  apply (Hpm 1); vm_compute; reflexivity.
Defined.

(** ** Composition of the additions *)

(** Adding [a] years and then [b] years is adding [a + b] years, when the
    first addition succeeds (the outcome, value or error, is the same). *)
Theorem plusYears_compose (ym r : YearMonth) (a b : Z)
  (Hvalid : valid ym) (Ha : plusYears ym a = Ok r) :
  plusYears r b = plusYears ym (a + b).
Proof. exact (plusYears_plusYears ym r a b Hvalid Ha). Qed.

Lemma plusYears_compose_witness :
  plusYears (mkYearMonth 2007 12) 5 = Ok (mkYearMonth 2012 12) /\
  plusYears (mkYearMonth 2012 12) (-7) = Ok (mkYearMonth 2005 12).
Proof.
  split; [vm_compute; reflexivity |].
  rewrite (plusYears_compose (mkYearMonth 2007 12) (mkYearMonth 2012 12) 5 (-7));
    [vm_compute; reflexivity | | vm_compute; reflexivity].
  unfold valid, Year_MIN_VALUE, Year_MAX_VALUE; simpl; lia.
Defined.

(** Adding [a] months and then [b] months is adding [a + b] months, when the
    first addition succeeds (the outcome, value or error, is the same). *)
Theorem plusMonths_compose (ym r : YearMonth) (a b : Z)
  (Hvalid : valid ym) (Ha : plusMonths ym a = Ok r) :
  plusMonths r b = plusMonths ym (a + b).
Proof. exact (plusMonths_plusMonths ym r a b Hvalid Ha). Qed.

Lemma plusMonths_compose_witness :
  plusMonths (mkYearMonth 2007 12) 1 = Ok (mkYearMonth 2008 1) /\
  plusMonths (mkYearMonth 2008 1) (-14) = Ok (mkYearMonth 2006 11).
Proof.
  split; [vm_compute; reflexivity |].
  rewrite (plusMonths_compose (mkYearMonth 2007 12) (mkYearMonth 2008 1) 1 (-14));
    [vm_compute; reflexivity | | vm_compute; reflexivity].
  unfold valid, Year_MIN_VALUE, Year_MAX_VALUE; simpl; lia.
Defined.

(** Adding [12 * k] months is adding [k] years (same value or same error). *)
Theorem plusMonths_whole_years (ym : YearMonth) (k : Z) (Hvalid : valid ym) :
  plusMonths ym (12 * k) = plusYears ym k.
Proof.
  destruct ym as [y m]; unfold valid in Hvalid; cbn in Hvalid.
  rewrite plusMonths_unfold, plusYears_unfold; cbv zeta.
  destruct (Z.eqb_spec k 0) as [Ek | Ek]; [subst; reflexivity |].
  replace (12 * k =? 0) with false by (symmetry; apply Z.eqb_neq; lia).
  replace (y * 12 + (m - 1) + 12 * k) with ((y + k) * 12 + (m - 1)) by lia.
  destruct (month_count_div_mod (y + k) m ltac:(lia)) as [D M]; rewrite D, M.
  replace (m - 1 + 1) with m by lia; reflexivity.
Qed.

Lemma plusMonths_whole_years_witness :
  valid (mkYearMonth 2007 12) /\
  plusMonths (mkYearMonth 2007 12) (12 * 3) = Ok (mkYearMonth 2010 12).
Proof.
  assert (H : valid (mkYearMonth 2007 12))
    by (unfold valid, Year_MIN_VALUE, Year_MAX_VALUE; simpl; lia).
  split; [exact H |].
  rewrite (plusMonths_whole_years _ 3 H); vm_compute; reflexivity.
Defined.

(** [plusMonths n] moves the proleptic month by exactly [n]. *)
Theorem plusMonths_shifts_prolepticMonth (env : Externals) (ym r : YearMonth)
  (n : Z) (Hvalid : valid ym) (H : plusMonths ym n = Ok r) :
  getLong env r (JChronoField PROLEPTIC_MONTH) =
  Ok (_year ym * 12 + (_month ym - 1) + n).
Proof.
  rewrite (getLong_prolepticMonth env r (plusMonths_valid ym r n Hvalid H)).
  destruct ym as [y m]; cbn.
  rewrite (plusMonths_prolepticMonth y m n r H); reflexivity.
Qed.

Lemma plusMonths_shifts_prolepticMonth_witness :
  getLong no_externals (mkYearMonth 2008 1) (JChronoField PROLEPTIC_MONTH) =
  Ok (2007 * 12 + (12 - 1) + 1).
Proof.
  apply (plusMonths_shifts_prolepticMonth no_externals (mkYearMonth 2007 12)
           (mkYearMonth 2008 1) 1);
    [unfold valid, Year_MIN_VALUE, Year_MAX_VALUE; simpl; lia |
     vm_compute; reflexivity].
Defined.

(** [minusYears n] undoes [plusYears n] whenever [plusYears n] succeeds. *)
Theorem plusYears_then_minusYears (ym r : YearMonth) (n : Z)
  (Hvalid : valid ym) (H : plusYears ym n = Ok r) :
  minusYears r n = Ok ym.
Proof.
  unfold minusYears.
  destruct (Z.eqb_spec n MathUtil_MIN_SAFE_INTEGER) as [Emin | Emin].
  - exfalso; subst n; destruct ym as [y m]; rewrite plusYears_unfold in H.
    unfold valid in Hvalid; cbn in Hvalid.
    decide_cmp_in H; try discriminate;
      unfold MathUtil_MIN_SAFE_INTEGER, Year_MIN_VALUE, Year_MAX_VALUE in *; lia.
  - rewrite (plusYears_plusYears ym r n (- n) Hvalid H), Z.add_opp_diag_r.
    destruct ym as [y m]; rewrite plusYears_unfold; reflexivity.
Qed.

Lemma plusYears_then_minusYears_witness :
  minusYears (mkYearMonth 2012 12) 5 = Ok (mkYearMonth 2007 12).
Proof.
  apply (plusYears_then_minusYears (mkYearMonth 2007 12) (mkYearMonth 2012 12) 5);
    [unfold valid, Year_MIN_VALUE, Year_MAX_VALUE; simpl; lia |
     vm_compute; reflexivity].
Defined.

(** The boundary path of [minusMonths] and [minusYears] (amount equal to the
    safe-integer minimum) never produces a value: [minusMonths] passes
    [Math.MAX_SAFE_INTEGER], which is [undefined], to [plusMonths] and fails
    on the year NaN for every YearMonth; [minusYears] adds the minimum itself
    and fails on the year [y + MIN_SAFE_INTEGER] for every valid one. *)
Theorem minus_min_safe_integer_fails (ym : YearMonth) (Hvalid : valid ym) :
  minusMonths ym MathUtil_MIN_SAFE_INTEGER =
    Err (InvalidValueNaN (JChronoField YEAR)) /\
  minusYears ym MathUtil_MIN_SAFE_INTEGER =
    Err (InvalidValue (JChronoField YEAR) (_year ym + MathUtil_MIN_SAFE_INTEGER)).
Proof.
  destruct ym as [y m]; unfold valid in Hvalid; cbn in Hvalid;
    cbn [_year _month].
  unfold minusMonths, minusYears; rewrite !Z.eqb_refl; cbn [bind].
  split; [reflexivity |].
  rewrite plusYears_unfold.
  unfold MathUtil_MIN_SAFE_INTEGER, Year_MIN_VALUE, Year_MAX_VALUE in *.
  decide_cmp; cbn [bind]; finish.
Qed.

Lemma minus_min_safe_integer_fails_witness :
  minusYears (mkYearMonth 2007 12) MathUtil_MIN_SAFE_INTEGER =
  Err (InvalidValue (JChronoField YEAR) (2007 + MathUtil_MIN_SAFE_INTEGER)).
Proof.
  apply (minus_min_safe_integer_fails (mkYearMonth 2007 12)).
  unfold valid, Year_MIN_VALUE, Year_MAX_VALUE; simpl; lia.
Defined.

(** ** Field access and adjustment *)

Tactic Notation "reduce_access" :=
  cbn [getLong get range TemporalAccessor_range _isSupportedField
       _withFieldValue requireNonNull requireInstance instanceof_TemporalField
       bind _year _month year ChronoField_range ValueRange_of vr_min vr_max].
Tactic Notation "reduce_access" "in" hyp(H) :=
  cbn [getLong get range TemporalAccessor_range _isSupportedField
       _withFieldValue requireNonNull requireInstance instanceof_TemporalField
       bind _year _month year ChronoField_range ValueRange_of vr_min vr_max] in H.

Lemma getLong_chrono_values (env : Externals) (ym : YearMonth) :
  getLong env ym (JChronoField ERA) = Ok (if _year ym <? 1 then 0 else 1) /\
  getLong env ym (JChronoField YEAR_OF_ERA) =
    Ok (if _year ym <? 1 then 1 - _year ym else _year ym) /\
  getLong env ym (JChronoField YEAR) = Ok (_year ym) /\
  getLong env ym (JChronoField MONTH_OF_YEAR) = Ok (_month ym).
Proof. repeat split. Qed.

(** Setting a supported field to the value [getLong] reads from it gives
    the same value back. *)
Theorem withFieldValue_getLong_roundtrip (env : Externals) (ym : YearMonth)
  (f : ChronoField) (v : Z) (Hvalid : valid ym)
  (Hs : _isSupportedField env ym (JChronoField f) = true)
  (Hg : getLong env ym (JChronoField f) = Ok v) :
  _withFieldValue env ym (JChronoField f) v = Ok ym.
Proof.
  destruct (getLong_chrono_values env ym) as [Ge [Gyoe [Gy Gm]]].
  destruct f; cbn in Hs; try discriminate.
  - reduce_access; rewrite Ge in Hg; injection Hg as <-.
    rewrite checkValidValue_in by (cbv [ChronoField_range ValueRange_of vr_min vr_max]; decide_cmp; lia).
    reduce_access; rewrite Z.eqb_refl; reflexivity.
  - reduce_access; rewrite Gyoe in Hg.
    assert (Hv : v = if _year ym <? 1 then 1 - _year ym else _year ym)
      by congruence; subst v.
    unfold valid in Hvalid.
    rewrite checkValidValue_in
      by (cbv [ChronoField_range ValueRange_of vr_min vr_max]; unfold Year_MIN_VALUE, Year_MAX_VALUE in *; decide_cmp; lia).
    reduce_access; rewrite withYear_unfold.
    decide_cmp; destruct ym; cbn [_year _month] in *;
    unfold Year_MIN_VALUE, Year_MAX_VALUE in *; finish.
  - reduce_access; rewrite Gy in Hg; injection Hg as <-.
    unfold valid in Hvalid.
    rewrite checkValidValue_in by (cbv [ChronoField_range ValueRange_of vr_min vr_max]; lia).
    reduce_access; rewrite withYear_unfold.
    decide_cmp; destruct ym; cbn [_year _month] in *;
    unfold Year_MIN_VALUE, Year_MAX_VALUE in *; finish.
  - reduce_access; rewrite Gm in Hg; injection Hg as <-.
    unfold valid in Hvalid.
    rewrite checkValidValue_in by (cbv [ChronoField_range ValueRange_of vr_min vr_max]; lia).
    reduce_access; rewrite withMonth_unfold.
    decide_cmp; destruct ym; cbn [_year _month] in *;
    unfold Year_MIN_VALUE, Year_MAX_VALUE in *; finish.
  - rewrite (getLong_prolepticMonth env ym Hvalid) in Hg; injection Hg as <-.
    unfold _withFieldValue; reduce_access.
    pose proof Hvalid as Hv; unfold valid in Hv.
    rewrite checkValidValue_in by (cbv [ChronoField_range ValueRange_of vr_min vr_max]; lia).
    reduce_access.
    rewrite (prolepticMonth_ok ym Hvalid).
    cbn [bind]; rewrite Z.sub_diag.
    destruct ym; reflexivity.
Qed.

Lemma withFieldValue_getLong_roundtrip_witness :
  _withFieldValue no_externals (mkYearMonth 0 6) (JChronoField YEAR_OF_ERA) 1 =
  Ok (mkYearMonth 0 6).
Proof.
  apply (withFieldValue_getLong_roundtrip no_externals (mkYearMonth 0 6) YEAR_OF_ERA 1);
    [unfold valid, Year_MIN_VALUE, Year_MAX_VALUE; simpl; lia |
     reflexivity | reflexivity].
Defined.

(** After a successful [with(f, v)] on a supported field, [getLong(f)]
    reads back [v]. *)
Theorem withFieldValue_then_getLong (env : Externals) (ym r : YearMonth)
  (f : ChronoField) (v : Z) (Hvalid : valid ym)
  (Hs : _isSupportedField env ym (JChronoField f) = true)
  (H : _withFieldValue env ym (JChronoField f) v = Ok r) :
  getLong env r (JChronoField f) = Ok v.
Proof.
  pose proof (withFieldValue_chrono_valid env ym r f v Hvalid H) as Hr.
  unfold _withFieldValue in H; reduce_access; reduce_access in H.
  destruct (ChronoField_checkValidValue f v) eqn:Ec; cbn [bind] in H;
    [| discriminate].
  apply checkValidValue_ok_inv in Ec; destruct Ec as [_ Hb].
  destruct ym as [y m]; unfold valid in Hvalid; cbn in Hvalid.
  destruct f; cbn in Hs; try discriminate; reduce_access in Hb;
    reduce_access in H.
  - unfold Year_MIN_VALUE, Year_MAX_VALUE in Hvalid; revert H.
    destruct (Z.ltb_spec y 1);
      [destruct (Z.eqb_spec 0 v) | destruct (Z.eqb_spec 1 v)]; intro Hw;
      cbv beta iota in Hw;
      try (ok_subst Hw; cbn [_year _month] in *; decide_cmp; finish);
      rewrite withYear_unfold in Hw; revert Hw; unfold Year_MIN_VALUE, Year_MAX_VALUE;
      decide_cmp; intro Hw; try discriminate;
      ok_subst Hw; cbn [_year _month] in *; decide_cmp; finish.
  - unfold Year_MIN_VALUE, Year_MAX_VALUE in Hvalid; revert H.
    rewrite withYear_unfold; unfold Year_MIN_VALUE, Year_MAX_VALUE;
      decide_cmp; intro Hw; try discriminate;
      ok_subst Hw; cbn [_year _month] in *; decide_cmp; finish.
  - revert H; rewrite withYear_unfold; decide_cmp; intro Hw; try discriminate;
      ok_subst Hw; reduce_access; reflexivity.
  - revert H; rewrite withMonth_unfold; decide_cmp; intro Hw; try discriminate;
      ok_subst Hw; reduce_access; reflexivity.
  - rewrite (prolepticMonth_ok (mkYearMonth y m)) in H by exact Hvalid.
    cbn [bind] in H.
    rewrite (prolepticMonth_ok r Hr).
    rewrite (plusMonths_prolepticMonth y m _ r H); cbn [_year _month]; f_equal; lia.
Qed.

Lemma withFieldValue_then_getLong_witness :
  getLong no_externals (mkYearMonth 1 6) (JChronoField ERA) = Ok 1.
Proof.
  apply (withFieldValue_then_getLong no_externals (mkYearMonth 0 6)
           (mkYearMonth 1 6) ERA 1);
    [unfold valid, Year_MIN_VALUE, Year_MAX_VALUE; simpl; lia |
     reflexivity | vm_compute; reflexivity].
Defined.

(** [get] on MONTH_OF_YEAR, YEAR, YEAR_OF_ERA or ERA of a valid YearMonth
    returns what [getLong] returns: the range check it adds never fires
    (PROLEPTIC_MONTH is the subject of C5). *)
Theorem get_agrees_with_getLong (env : Externals) (ym : YearMonth)
  (f : ChronoField) (Hvalid : valid ym)
  (Hs : _isSupportedField env ym (JChronoField f) = true)
  (Hp : f <> PROLEPTIC_MONTH) :
  get env ym (JChronoField f) = getLong env ym (JChronoField f).
Proof.
  destruct (getLong_chrono_values env ym) as [Ge [Gyoe [Gy Gm]]].
  pose proof Hvalid as Hv; destruct ym as [y m]; unfold valid in Hv; cbn in Hv.
  unfold Year_MIN_VALUE, Year_MAX_VALUE in Hv.
  destruct f; cbn in Hs; try discriminate; unfold get;
    cbn [requireNonNull requireInstance instanceof_TemporalField bind].
  - rewrite Ge; cbn [range TemporalAccessor_range _isSupportedField bind].
    unfold checkValidIntValue, isValidValue; cbn [ChronoField_range ValueRange_of vr_min vr_max _year].
    decide_cmp; finish.
  - rewrite Gyoe; cbn [range bind year _year].
    unfold checkValidIntValue, isValidValue;
      unfold Year_MAX_VALUE.
    destruct (Z.leb_spec y 0); cbn [ValueRange_of vr_min vr_max];
      decide_cmp; finish.
  - rewrite Gy; cbn [range TemporalAccessor_range _isSupportedField bind].
    unfold checkValidIntValue, isValidValue; cbn [ChronoField_range ValueRange_of vr_min vr_max _year].
    unfold Year_MIN_VALUE, Year_MAX_VALUE; decide_cmp; finish.
  - rewrite Gm; cbn [range TemporalAccessor_range _isSupportedField bind].
    unfold checkValidIntValue, isValidValue; cbn [ChronoField_range ValueRange_of vr_min vr_max _month].
    decide_cmp; finish.
  - contradiction.
Qed.

Lemma get_agrees_with_getLong_witness :
  get no_externals (mkYearMonth (-5) 3) (JChronoField YEAR_OF_ERA) =
  getLong no_externals (mkYearMonth (-5) 3) (JChronoField YEAR_OF_ERA).
Proof.
  apply (get_agrees_with_getLong no_externals (mkYearMonth (-5) 3) YEAR_OF_ERA);
    [unfold valid, Year_MIN_VALUE, Year_MAX_VALUE; simpl; lia | reflexivity |
     discriminate].
Defined.

(** On a valid YearMonth, a well-known field is reported supported exactly
    when [getLong] succeeds on it. *)
Theorem supported_field_iff_getLong_ok (env : Externals) (ym : YearMonth)
  (f : ChronoField) (Hvalid : valid ym) :
  _isSupportedField env ym (JChronoField f) = true <->
  exists v, getLong env ym (JChronoField f) = Ok v.
Proof.
  destruct f; cbn [_isSupportedField]; split; intros H; try discriminate;
    try (eexists; apply (getLong_prolepticMonth env ym Hvalid));
    try (eexists; reflexivity); try reflexivity.
  destruct H as [v Hv]; discriminate Hv.
Qed.

Lemma supported_field_iff_getLong_ok_witness :
  _isSupportedField no_externals (mkYearMonth 2007 12)
    (JChronoField PROLEPTIC_MONTH) = true <->
  exists v, getLong no_externals (mkYearMonth 2007 12)
              (JChronoField PROLEPTIC_MONTH) = Ok v.
Proof.
  apply (supported_field_iff_getLong_ok no_externals (mkYearMonth 2007 12)
           PROLEPTIC_MONTH).
  unfold valid, Year_MIN_VALUE, Year_MAX_VALUE; simpl; lia.
Defined.

(** [getLong] and [get] reject a null field with a NullPointerException
    and any other object that is not a TemporalField with an
    IllegalArgumentException, before looking at the YearMonth. *)
Theorem field_argument_checks (env : Externals) (ym : YearMonth) (o : JsObj)
  (Hn : o <> JNull) (Hi : instanceof_TemporalField o = false) :
  (getLong env ym JNull = Err (NullPointerException "field") /\
   get env ym JNull = Err (NullPointerException "field")) /\
  (getLong env ym o = Err (IllegalArgumentException "field") /\
   get env ym o = Err (IllegalArgumentException "field")).
Proof.
  split; [repeat split |].
  destruct o; try contradiction; try discriminate; repeat split.
Qed.

Lemma field_argument_checks_witness :
  JChronoUnit MONTHS <> JNull /\
  get no_externals (mkYearMonth 2007 12) (JChronoUnit MONTHS) =
    Err (IllegalArgumentException "field").
Proof.
  split; [discriminate |].
  apply (field_argument_checks no_externals (mkYearMonth 2007 12)
           (JChronoUnit MONTHS)); [discriminate | reflexivity].
Defined.

(** [plus(amount, unit)] and [minus(amount, unit)] reject a null unit with a
    NullPointerException and any other object that is not a TemporalUnit
    with an IllegalArgumentException, whatever the amount (also at the
    safe-integer minimum, where [minus] takes two steps). *)
Theorem unit_argument_checks (env : Externals) (ym : YearMonth) (o : JsObj)
  (n : Z) (Hn : o <> JNull) (Hi : instanceof_TemporalUnit o = false) :
  (_plusAmountUnit env ym n JNull = Err (NullPointerException "unit") /\
   _minusAmountUnit env ym n JNull = Err (NullPointerException "unit")) /\
  (_plusAmountUnit env ym n o = Err (IllegalArgumentException "unit") /\
   _minusAmountUnit env ym n o = Err (IllegalArgumentException "unit")).
Proof.
  unfold _minusAmountUnit.
  split; [| destruct o; try contradiction; try discriminate];
    destruct (n =? MathUtil_MIN_SAFE_INTEGER); split; reflexivity.
Qed.

Lemma unit_argument_checks_witness :
  JChronoField YEAR <> JNull /\
  _minusAmountUnit no_externals (mkYearMonth 2007 12) MathUtil_MIN_SAFE_INTEGER
    (JChronoField YEAR) = Err (IllegalArgumentException "unit").
Proof.
  split; [discriminate |].
  apply (unit_argument_checks no_externals (mkYearMonth 2007 12)
           (JChronoField YEAR) MathUtil_MIN_SAFE_INTEGER);
    [discriminate | reflexivity].
Defined.

(** A ChronoField other than the five YearMonth knows is unsupported: [get]
    fails with UnsupportedTemporalTypeException, and [with(field, value)]
    first checks the value against the field's own range, failing with a
    DateTimeException outside it and with UnsupportedTemporalTypeException
    inside it. *)
Theorem unsupported_chrono_field (env : Externals) (ym : YearMonth)
  (name : string) (lo hi v : Z) :
  _isSupportedField env ym (JChronoField (OtherChronoField name lo hi)) = false /\
  get env ym (JChronoField (OtherChronoField name lo hi)) =
    Err (UnsupportedTemporalTypeException "Unsupported field") /\
  _withFieldValue env ym (JChronoField (OtherChronoField name lo hi)) v =
    (if (lo <=? v) && (v <=? hi)
     then Err (UnsupportedTemporalTypeException "Unsupported field")
     else Err (InvalidValue (JChronoField (OtherChronoField name lo hi)) v)).
Proof.
  split; [reflexivity | split; [reflexivity |]].
  unfold _withFieldValue, ChronoField_checkValidValue, checkValidValue,
    isValidValue; cbn [requireNonNull requireInstance instanceof_TemporalField
                       bind ChronoField_range ValueRange_of vr_min vr_max].
  destruct (_ && _); reflexivity.
Qed.

(** [equals] between YearMonth instances is symmetric, and holds exactly
    when both are the same instance or have the same year and month. *)
Theorem equals_value_equality (r1 r2 : nat) (a b : YearMonth) :
  equals r1 a (VYearMonth r2 b) = equals r2 b (VYearMonth r1 a) /\
  (equals r1 a (VYearMonth r2 b) = true <-> r2 = r1 \/ a = b).
Proof.
  destruct a as [y1 m1], b as [y2 m2].
  unfold equals, year, monthValue; cbn [_year _month].
  rewrite (Nat.eqb_sym r1 r2), (Z.eqb_sym y2 y1), (Z.eqb_sym m2 m1).
  destruct (Nat.eqb_spec r2 r1) as [-> | Hne].
  - split; [reflexivity | split; auto].
  - destruct (Z.eqb_spec y1 y2) as [<- | Hy], (Z.eqb_spec m1 m2) as [<- | Hm];
      cbn [andb]; (split; [reflexivity | split]);
      try (intros _; right; reflexivity);
      try discriminate; intros [E | E]; congruence.
Qed.

(** On a valid YearMonth, [plusYears n] keeps the month and yields year
    [y + n] when it lies in MIN_YEAR..MAX_YEAR, and fails with a
    DateTimeException on YEAR carrying [y + n] otherwise. *)
Theorem plusYears_range_check (ym : YearMonth) (n : Z) (Hvalid : valid ym) :
  plusYears ym n =
    if (Year_MIN_VALUE <=? _year ym + n) && (_year ym + n <=? Year_MAX_VALUE)
    then Ok (mkYearMonth (_year ym + n) (_month ym))
    else Err (InvalidValue (JChronoField YEAR) (_year ym + n)).
Proof.
  destruct ym as [y m]; unfold valid in Hvalid; cbn [_year _month] in *.
  rewrite plusYears_unfold.
  destruct (Z.eqb_spec n 0) as [-> | Hn]; [| reflexivity].
  rewrite Z.add_0_r; unfold Year_MIN_VALUE, Year_MAX_VALUE in *.
  decide_cmp; finish.
Qed.

Lemma plusYears_range_check_witness :
  plusYears (mkYearMonth 2007 12) 999999000 =
    Err (InvalidValue (JChronoField YEAR) (2007 + 999999000)).
Proof.
  rewrite (plusYears_range_check (mkYearMonth 2007 12) 999999000)
    by (unfold valid, Year_MIN_VALUE, Year_MAX_VALUE; simpl; lia).
  vm_compute; reflexivity.
Defined.
